(** * Gemini Image Editor: file ingestion, edit request adapter, session sequencer

    A shallow embedding of [src/utils/fileUtils.ts] ([processFile]),
    [src/services/geminiService.ts] ([editImage]) and of the state handlers
    of the [App] component ([handleImageUpload], [handleClear],
    [handleSubmit], [getFileExtension]).

    JavaScript strings are modelled as [string]; every character stands for
    one code unit (0 to 255).  Optional fields ([candidates?], [content?], ...) are
    [option]s, [None] standing for [undefined].  Exceptions and promise
    rejections are explicit results.  Each [await] splits a handler in the
    part that runs before the suspension and the part that runs when the
    awaited promise settles. *)

From Stdlib Require Import String Ascii List Bool Arith Lia.
Import ListNotations.
Open Scope string_scope.
Open Scope list_scope.

(** ** JavaScript string primitives used by the program *)

(** [s.startsWith(search)] *)
Fixpoint startsWith (s search : string) : bool :=
  match search with
  | EmptyString => true
  | String c search' =>
      match s with
      | EmptyString => false
      | String d s' => Ascii.eqb d c && startsWith s' search'
      end
  end.

(** [s.split(sep)] for a separator of one character: the list of the
    maximal separator-free segments, never empty ([''.split(',')] is ['']). *)
Fixpoint split (sep : ascii) (s : string) : list string :=
  match s with
  | EmptyString => [EmptyString]
  | String c rest =>
      if Ascii.eqb c sep then EmptyString :: split sep rest
      else match split sep rest with
           | [] => [String c EmptyString]
           | seg :: segs => String c seg :: segs
           end
  end.

(** The white space and line terminators of [String.prototype.trim] among
    the code units a character holds (0 to 255): TAB, LF, VT, FF, CR,
    SPACE and NO-BREAK SPACE (160).  The other white space of ECMAScript
    (U+FEFF, U+2028, U+2029 and the remaining space separators) lies
    above 255. *)
Definition is_white_space (c : ascii) : bool :=
  let n := nat_of_ascii c in
  (Nat.leb 9 n && Nat.leb n 13) || Nat.eqb n 32 || Nat.eqb n 160.

Fixpoint trimStart (s : string) : string :=
  match s with
  | EmptyString => EmptyString
  | String c rest => if is_white_space c then trimStart rest else s
  end.

Fixpoint trimEnd (s : string) : string :=
  match s with
  | EmptyString => EmptyString
  | String c rest =>
      match trimEnd rest with
      | EmptyString => if is_white_space c then EmptyString else String c EmptyString
      | kept => String c kept
      end
  end.

(** [s.trim()] *)
Definition trim (s : string) : string := trimEnd (trimStart s).

(** Truthiness of a string: every string but the empty one. *)
Definition truthy_string (s : string) : bool :=
  match s with EmptyString => false | String _ _ => true end.

(** Truthiness of an optional object or array: everything but [undefined]. *)
Definition truthy {A : Type} (o : option A) : bool :=
  match o with Some _ => true | None => false end.

(** Truthiness of an optional boolean. *)
Definition truthy_bool (o : option bool) : bool :=
  match o with Some b => b | None => false end.

(** Segment-level vocabulary for statements: [s] holds no occurrence of [c]. *)
Fixpoint free_of (c : ascii) (s : string) : bool :=
  match s with
  | EmptyString => true
  | String d rest => negb (Ascii.eqb d c) && free_of c rest
  end.

(** ** Thrown values and results *)

(** What a [throw] or a rejection carries.  [ErrorObj] is [new Error(message)];
    [TypeErrorObj] is the [TypeError] the engine raises when a member of
    [undefined] is read or [undefined] is iterated (an instance of [Error]
    too); [NonError] is any value that is not an instance of [Error]. *)
Inductive js_thrown : Type :=
| ErrorObj (message : string)
| TypeErrorObj (message : string)
| NonError.

(** [error instanceof Error] *)
Definition instanceof_Error (e : js_thrown) : bool :=
  match e with
  | ErrorObj _ | TypeErrorObj _ => true
  | NonError => false
  end.

(** [error.message] of an instance of [Error] *)
Definition error_message (e : js_thrown) : option string :=
  match e with
  | ErrorObj m | TypeErrorObj m => Some m
  | NonError => None
  end.

(** The completion of a synchronous block, or the settlement of a promise. *)
Inductive completion (A : Type) : Type :=
| Normal (a : A)
| Throw (e : js_thrown).
Arguments Normal {A} a.
Arguments Throw {A} e.

Definition bind {A B : Type} (c : completion A) (k : A -> completion B) : completion B :=
  match c with
  | Normal a => k a
  | Throw e => Throw e
  end.

Notation "x <- c ;; k" := (bind c (fun x => k))
  (at level 61, c at next level, right associativity).

(** [o.name] where [o] may be [undefined]: reading a member of [undefined]
    raises a [TypeError]. *)
Definition member {A B : Type} (name : string) (o : option A) (get : A -> B) : completion B :=
  match o with
  | Some a => Normal (get a)
  | None => Throw (TypeErrorObj ("Cannot read properties of undefined (reading '" ++ name ++ "')"))
  end.

(** [o?.name], for an optional member. *)
Definition opt_member {A B : Type} (o : option A) (get : A -> option B) : option B :=
  match o with
  | Some a => get a
  | None => None
  end.

(** [for (... of o)] needs an iterable: iterating [undefined] raises. *)
Definition iterable {A : Type} (o : option (list A)) : completion (list A) :=
  match o with
  | Some l => Normal l
  | None => Throw (TypeErrorObj "undefined is not iterable")
  end.

(** ** src/services/geminiService.ts *)

(** The shape of the response of [generateContent], as far as [editImage]
    reads it.  [data] is a string: [editImage] returns it as the value of
    its [Promise<string>]. *)
Record Blob : Type := { data : string; blob_mimeType : string }.
Record Part : Type := { text : option string; inlineData : option Blob }.
Record Content : Type := { parts : option (list Part) }.
Record SafetyRating : Type := { category : string; blocked : option bool }.
Record Candidate : Type :=
  { content : option Content; safetyRatings : option (list SafetyRating) }.
Record GenerateContentResponse : Type := { candidates : option (list Candidate) }.

(** The request built at lines 11-29: the image part, the text part and the
    requested modality.  [base64Data] is optional because [processFile] can
    hand over [undefined] (see [processFile_onload]). *)
Record GenerateContentRequest : Type :=
  { model : string;
    request_data : option string;
    request_mimeType : string;
    request_text : string;
    responseModalities : list string }.

Definition build_request (base64Data : option string) (mimeType prompt : string)
  : GenerateContentRequest :=
  {| model := "gemini-2.5-flash-image";
     request_data := base64Data;
     request_mimeType := mimeType;
     request_text := prompt;
     responseModalities := ["IMAGE"] |}.

Definition SAFETY_MESSAGE : string :=
  "Image generation was blocked due to safety policies. Please try a different prompt.".
Definition NO_IMAGE_MESSAGE : string :=
  "No image was generated. The model did not return an image.".
Definition FAILED_PREFIX : string := "Failed to generate image: ".
Definition UNKNOWN_MESSAGE : string :=
  "An unknown error occurred while generating the image.".

(** [response.candidates?.[0]] *)
Definition first_candidate (response : GenerateContentResponse) : option Candidate :=
  opt_member (candidates response) (fun cs => nth_error cs 0).

(** Lines 35-39: the loop over the parts; [Some d] is the early [return]. *)
Fixpoint scan_parts (ps : list Part) : completion (option string) :=
  match ps with
  | [] => Normal None
  | part :: rest =>
      if truthy (inlineData part)
      then d <- member "data" (inlineData part) data ;; Normal (Some d)
      else scan_parts rest
  end.

(** Lines 34-40: the guard and, under it, the unguarded
    [candidate.content.parts]. *)
Definition find_image (candidate : option Candidate) : completion (option string) :=
  if truthy (opt_member (opt_member candidate content) parts)
  then
    c <- member "content" candidate content ;;
    ps <- member "parts" c parts ;;
    l <- iterable ps ;;
    scan_parts l
  else Normal None.

(** [candidate?.safetyRatings?.some(rating => rating.blocked)] *)
Definition some_blocked (candidate : option Candidate) : bool :=
  match opt_member candidate safetyRatings with
  | Some ratings => existsb (fun rating => truthy_bool (blocked rating)) ratings
  | None => false
  end.

(** Lines 42-47: what runs once no image was found. *)
Definition no_image_path (candidate : option Candidate) : completion string :=
  if some_blocked candidate
  then Throw (ErrorObj SAFETY_MESSAGE)
  else Throw (ErrorObj NO_IMAGE_MESSAGE).

(** Lines 31-47: the part of the [try] block after the awaited call. *)
Definition parse_response (response : GenerateContentResponse) : completion string :=
  let candidate := first_candidate response in
  found <- find_image candidate ;;
  match found with
  | Some d => Normal d
  | None => no_image_path candidate
  end.

(** Lines 48-54: the [catch] block.  The first branch is
    [error instanceof Error]. *)
Definition catch_block (error : js_thrown) : completion string :=
  match error with
  | ErrorObj m | TypeErrorObj m => Throw (ErrorObj (FAILED_PREFIX ++ m))
  | NonError => Throw (ErrorObj UNKNOWN_MESSAGE)
  end.

(** [editImage]: the remote capability (client construction and
    [generateContent]) is the parameter [remote]; it returns a response or
    throws. *)
Definition editImage (remote : GenerateContentRequest -> completion GenerateContentResponse)
    (base64Data : option string) (mimeType prompt : string) : completion string :=
  match (response <- remote (build_request base64Data mimeType prompt) ;;
         parse_response response) with
  | Normal d => Normal d
  | Throw error => catch_block error
  end.

(** The failure kinds of the adapter.  The code raises plain [Error]s; a kind
    is recognised by its message. *)
Inductive EditFailure : Type :=
| SafetyBlocked
| NoImageReturned
| RemoteCallFailure
| UnknownFailure.

Definition has_kind (k : EditFailure) (e : js_thrown) : Prop :=
  match k with
  | SafetyBlocked => e = ErrorObj SAFETY_MESSAGE
  | NoImageReturned => e = ErrorObj NO_IMAGE_MESSAGE
  | RemoteCallFailure => exists m, e = ErrorObj (FAILED_PREFIX ++ m)
  | UnknownFailure => e = ErrorObj UNKNOWN_MESSAGE
  end.

(** No part of the first candidate carries inline data (also when there is
    no candidate, no content or no parts). *)
Definition no_inline_image (response : GenerateContentResponse) : Prop :=
  forall ps p,
    opt_member (opt_member (first_candidate response) content) parts = Some ps ->
    In p ps -> inlineData p = None.

(** ** src/utils/fileUtils.ts *)

Record File : Type := { name : string; type : string }.

Record ImageDetails : Type :=
  { url : string;
    base64 : option string;
    mimeType : string }.

(** What the [FileReader] reports for a file: [onload] with its result, or
    [onerror] with the progress event. *)
Inductive read_event : Type :=
| OnLoad (result : string)
| OnError.

(** The reads requested from the browser. *)
Inductive io_event : Type :=
| ReadAsDataURL (f : File).

Definition INVALID_FILE_MESSAGE : string := "Please select a valid image file.".

(** Lines 16-24: the [onload] handler.  [dataUrl.split(',')[1]] is
    [undefined] when the split has a single element. *)
Definition processFile_onload (file : File) (dataUrl : string) : ImageDetails :=
  {| url := dataUrl;
     base64 := nth_error (split "," dataUrl) 1;
     mimeType := type file |}.

(** [processFile]: the reads it requested and how its promise settles.
    The rejection of [onerror] carries the event, which is no [Error]. *)
Definition processFile (reader : File -> read_event) (file : option File)
  : list io_event * completion ImageDetails :=
  match file with
  | None => ([], Throw (ErrorObj INVALID_FILE_MESSAGE))
  | Some f =>
      if negb (startsWith (type f) "image/")
      then ([], Throw (ErrorObj INVALID_FILE_MESSAGE))
      else ([ReadAsDataURL f],
            match reader f with
            | OnLoad dataUrl => Normal (processFile_onload f dataUrl)
            | OnError => Throw NonError
            end)
  end.

(** ** The [App] component: state and handlers *)

(** [ImageFileState extends ImageDetails] with the file; [{ ...details, file }]. *)
Record ImageFileState : Type := { image : ImageDetails; file : File }.

Record EditedImage : Type := { edited_url : string; edited_mimeType : string }.

(** The [error] state holds [null], a message, or whatever [e.message]
    evaluated to, which is [undefined] for a value without that member. *)
Inductive error_value : Type :=
| JsNull
| JsUndefined
| JsString (s : string).

(** [e.message] of a caught value *)
Definition message_of (e : js_thrown) : error_value :=
  match e with
  | ErrorObj m | TypeErrorObj m => JsString m
  | NonError => JsUndefined
  end.

Definition truthy_error (e : error_value) : bool :=
  match e with
  | JsString s => truthy_string s
  | JsNull | JsUndefined => false
  end.

Record AppState : Type :=
  { originalImage : option ImageFileState;
    editedImage : option EditedImage;
    prompt : string;
    isLoading : bool;
    error : error_value }.

Definition initial_state : AppState :=
  {| originalImage := None; editedImage := None; prompt := "";
     isLoading := false; error := JsNull |}.

Definition setOriginalImage (v : option ImageFileState) (s : AppState) : AppState :=
  {| originalImage := v; editedImage := editedImage s; prompt := prompt s;
     isLoading := isLoading s; error := error s |}.
Definition setEditedImage (v : option EditedImage) (s : AppState) : AppState :=
  {| originalImage := originalImage s; editedImage := v; prompt := prompt s;
     isLoading := isLoading s; error := error s |}.
Definition setPrompt (v : string) (s : AppState) : AppState :=
  {| originalImage := originalImage s; editedImage := editedImage s; prompt := v;
     isLoading := isLoading s; error := error s |}.
Definition setIsLoading (v : bool) (s : AppState) : AppState :=
  {| originalImage := originalImage s; editedImage := editedImage s; prompt := prompt s;
     isLoading := v; error := error s |}.
Definition setError (v : error_value) (s : AppState) : AppState :=
  {| originalImage := originalImage s; editedImage := editedImage s; prompt := prompt s;
     isLoading := isLoading s; error := v |}.

(** [handleImageUpload], lines 60-62: up to the [await]. *)
Definition handleImageUpload_start (s : AppState) : AppState :=
  setEditedImage None (setError JsNull (setIsLoading true s)).

(** [handleImageUpload], lines 65-70: once [processFile] has settled. *)
Definition handleImageUpload_settled (f : File) (r : completion ImageDetails)
    (s : AppState) : AppState :=
  setIsLoading false
    match r with
    | Normal details => setOriginalImage (Some {| image := details; file := f |}) s
    | Throw e => setOriginalImage None (setError (message_of e) s)
    end.

(** [handleImageUpload] when nothing else happens during the read. *)
Definition handleImageUpload (reader : File -> read_event) (f : File) (s : AppState)
  : AppState :=
  handleImageUpload_settled f (snd (processFile reader (Some f)))
    (handleImageUpload_start s).

(** [handleClear], lines 74-80. *)
Definition handleClear (s : AppState) : AppState :=
  setIsLoading false
    (setError JsNull (setPrompt "" (setEditedImage None (setOriginalImage None s)))).

(** What the closure of a running [handleSubmit] holds across its [await]:
    the [originalImage] and the [prompt] of the render that submitted. *)
Record EditCall : Type := { call_original : ImageFileState; call_prompt : string }.

(** The arguments of the call of line 91. *)
Definition call_base64 (c : EditCall) : option string := base64 (image (call_original c)).
Definition call_mimeType (c : EditCall) : string := mimeType (image (call_original c)).

(** [handleSubmit], lines 84-88: the guard and the updates before the call;
    [None] is the early [return]. *)
Definition handleSubmit_start (s : AppState) : option (AppState * EditCall) :=
  if negb (truthy (originalImage s)) || negb (truthy_string (trim (prompt s))) || isLoading s
  then None
  else match originalImage s with
       | Some original =>
           Some (setEditedImage None (setError JsNull (setIsLoading true s)),
                 {| call_original := original; call_prompt := prompt s |})
       | None => None
       end.

(** [handleSubmit], lines 92-99: once [editImage] has settled. *)
Definition handleSubmit_settled (c : EditCall) (r : completion string) (s : AppState)
  : AppState :=
  setIsLoading false
    match r with
    | Normal resultBase64 =>
        setEditedImage
          (Some {| edited_url := "data:" ++ call_mimeType c ++ ";base64," ++ resultBase64;
                   edited_mimeType := call_mimeType c |}) s
    | Throw e => setError (message_of e) s
    end.

(** The call of line 91 against a remote capability. *)
Definition run_call (remote : GenerateContentRequest -> completion GenerateContentResponse)
    (c : EditCall) : completion string :=
  editImage remote (call_base64 c) (call_mimeType c) (call_prompt c).

(** [handleSubmit] when nothing else happens during the call. *)
Definition handleSubmit (remote : GenerateContentRequest -> completion GenerateContentResponse)
    (s : AppState) : AppState :=
  match handleSubmit_start s with
  | None => s
  | Some (s1, c) => handleSubmit_settled c (run_call remote c) s1
  end.

(** [getFileExtension], lines 103-106.  [parts[parts.length - 1]] is
    [undefined] for an empty array, which [split] never returns. *)
Definition getFileExtension (mimeType : string) : string :=
  let parts := split "/" mimeType in
  match nth_error parts (List.length parts - 1) with
  | Some last => if truthy_string last then last else "png"
  | None => "png"
  end.

(** ** The session: the component state and its suspended handlers *)

(** The four sequencer states of the design, read off the state variables
    (the component keeps no state type of its own). *)
Inductive Phase : Type := Idle | HasOriginal | Generating | HasEdited.

Definition phase_of (s : AppState) : Phase :=
  match originalImage s with
  | None => Idle
  | Some _ =>
      if isLoading s then Generating
      else match editedImage s with
           | Some _ => HasEdited
           | None => HasOriginal
           end
  end.

(** An edit result is held only while an original image is held. *)
Definition result_needs_asset (s : AppState) : bool :=
  implb (truthy (editedImage s)) (truthy (originalImage s)).

(** The component state together with the handlers suspended at an
    [await]: the files being read and the edit calls in flight. *)
Record Session : Type :=
  { app : AppState;
    reading : list File;
    editing : list EditCall }.

Definition initial_session : Session :=
  {| app := initial_state; reading := []; editing := [] |}.

(** What can happen to the page.  A settlement names the suspended handler
    by its position and carries what the outside world answered. *)
Inductive event : Type :=
| ChooseFile (f : File)
| ReadSettled (n : nat) (answer : read_event)
| TypePrompt (v : string)
| SubmitForm
| EditSettled (n : nat) (answer : completion GenerateContentResponse)
| ClickClear
| DismissError.

(** Line 120: the upload placeholder is rendered. *)
Definition placeholder_shown (s : AppState) : bool :=
  negb (truthy (originalImage s)) && negb (isLoading s).

(** Lines 131 and 190: the image panel (with the remove button) and the
    footer form (with the start-over button) are rendered. *)
Definition controls_shown (s : AppState) : bool := truthy (originalImage s).

(** Line 208: the prompt can be typed. *)
Definition textarea_enabled (s : AppState) : bool :=
  controls_shown s && negb (isLoading s).

(** Line 178: the error banner is rendered. *)
Definition banner_shown (s : AppState) : bool := truthy_error (error s).

Fixpoint remove_nth {A : Type} (n : nat) (l : list A) {struct l} : list A :=
  match l with
  | [] => []
  | x :: rest =>
      match n with
      | O => rest
      | S n' => x :: remove_nth n' rest
      end
  end.

(** One event; [None] when the page does not offer it. *)
Definition apply_event (ev : event) (ss : Session) : option Session :=
  match ev with
  | ChooseFile f =>
      if placeholder_shown (app ss)
      then Some {| app := handleImageUpload_start (app ss);
                   reading := reading ss ++ [f];
                   editing := editing ss |}
      else None
  | ReadSettled n answer =>
      match nth_error (reading ss) n with
      | Some f =>
          Some {| app := handleImageUpload_settled f
                           (snd (processFile (fun _ => answer) (Some f))) (app ss);
                  reading := remove_nth n (reading ss);
                  editing := editing ss |}
      | None => None
      end
  | TypePrompt v =>
      if textarea_enabled (app ss)
      then Some {| app := setPrompt v (app ss);
                   reading := reading ss; editing := editing ss |}
      else None
  | SubmitForm =>
      if controls_shown (app ss)
      then match handleSubmit_start (app ss) with
           | Some (s1, c) =>
               Some {| app := s1; reading := reading ss; editing := editing ss ++ [c] |}
           | None => Some ss
           end
      else None
  | EditSettled n answer =>
      match nth_error (editing ss) n with
      | Some c =>
          Some {| app := handleSubmit_settled c (run_call (fun _ => answer) c) (app ss);
                  reading := reading ss;
                  editing := remove_nth n (editing ss) |}
      | None => None
      end
  | ClickClear =>
      if controls_shown (app ss)
      then Some {| app := handleClear (app ss);
                   reading := reading ss; editing := editing ss |}
      else None
  | DismissError =>
      if banner_shown (app ss)
      then Some {| app := setError JsNull (app ss);
                   reading := reading ss; editing := editing ss |}
      else None
  end.

Fixpoint run (evs : list event) (ss : Session) : option Session :=
  match evs with
  | [] => Some ss
  | ev :: rest =>
      match apply_event ev ss with
      | Some ss' => run rest ss'
      | None => None
      end
  end.

Definition reachable (ss : Session) : Prop :=
  exists evs, run evs initial_session = Some ss.

(** Every media type the session holds begins with [image/]. *)
Definition image_type (m : string) : Prop := startsWith m "image/" = true.

Definition media_types_checked (ss : Session) : Prop :=
  (forall o, originalImage (app ss) = Some o -> image_type (mimeType (image o))) /\
  (forall r, editedImage (app ss) = Some r -> image_type (edited_mimeType r)) /\
  (forall c, In c (editing ss) -> image_type (call_mimeType c)).

(** At least one safety rating of the first candidate is marked blocked. *)
Definition rating_blocked (response : GenerateContentResponse) : Prop :=
  exists c ratings rating,
    first_candidate response = Some c /\
    safetyRatings c = Some ratings /\
    In rating ratings /\
    blocked rating = Some true.

(** ** Sample data *)

Definition photo_png : File := {| name := "photo.png"; type := "image/png" |}.

Definition image_answer (d : string) : completion GenerateContentResponse :=
  Normal {| candidates := Some
     [ {| content := Some {| parts := Some
            [ {| text := None;
                 inlineData := Some {| data := d; blob_mimeType := "image/png" |} |} ] |};
          safetyRatings := None |} ] |}.

(** A response without image, whose candidate was blocked. *)
Definition blocked_answer : GenerateContentResponse :=
  {| candidates := Some
     [ {| content := Some {| parts := Some
            [ {| text := Some "I cannot do that."; inlineData := None |} ] |};
          safetyRatings := Some
            [ {| category := "HARM_CATEGORY_DANGEROUS_CONTENT"; blocked := Some true |} ] |} ] |}.

(** A response without candidates. *)
Definition empty_answer : GenerateContentResponse := {| candidates := None |}.

(** A file whose declared type holds a comma, and the data URL the reader
    builds for its three bytes. *)
Definition odd_file : File := {| name := "odd.bin"; type := "image/x,y" |}.
Definition odd_url : string := "data:image/x,y;base64,QUJD".

Definition photo_asset : ImageFileState :=
  {| image := {| url := "data:image/png;base64,QUJD";
                 base64 := Some "QUJD";
                 mimeType := "image/png" |};
     file := photo_png |}.

(** An image is held and a prompt with surrounding blanks was typed. *)
Definition padded_prompt_state : AppState :=
  {| originalImage := Some photo_asset; editedImage := None;
     prompt := "  add sunglasses "; isLoading := false; error := JsNull |}.

(** Upload, type, submit, and the call resolves with an image. *)
Definition edit_completed : list event :=
  [ ChooseFile photo_png;
    ReadSettled 0 (OnLoad "data:image/png;base64,QUJD");
    TypePrompt "add sunglasses";
    SubmitForm;
    EditSettled 0 (image_answer "AAAA") ].

Definition edited_result : EditedImage :=
  {| edited_url := "data:image/png;base64,AAAA"; edited_mimeType := "image/png" |}.

Definition edited_session : Session :=
  {| app := {| originalImage := Some photo_asset;
               editedImage := Some edited_result;
               prompt := "add sunglasses"; isLoading := false; error := JsNull |};
     reading := []; editing := [] |}.

(** An image is held and the prompt is a single no-break space. *)
Definition nbsp_prompt_state : AppState :=
  {| originalImage := Some photo_asset; editedImage := None;
     prompt := String (ascii_of_nat 160) EmptyString;
     isLoading := false; error := JsNull |}.

(** An image is held and a prompt was typed. *)
Definition ready_state : AppState :=
  {| originalImage := Some photo_asset; editedImage := None;
     prompt := "add sunglasses"; isLoading := false; error := JsNull |}.

(** Upload and type a prompt with surrounding blanks. *)
Definition padded_prompt_typed : list event :=
  [ ChooseFile photo_png;
    ReadSettled 0 (OnLoad "data:image/png;base64,QUJD");
    TypePrompt "  add sunglasses " ].

(** Upload, type, submit, remove the image while the call is in flight. *)
Definition cleared_in_flight : list event :=
  [ ChooseFile photo_png;
    ReadSettled 0 (OnLoad "data:image/png;base64,QUJD");
    TypePrompt "add sunglasses";
    SubmitForm;
    ClickClear ].

(** ** Further vocabulary *)

(** Line 161: the file name offered for the download of a result. *)
Definition download_name (r : EditedImage) : string :=
  "edited-image." ++ getFileExtension (edited_mimeType r).

(** A string of white space only (the empty string included). *)
Fixpoint all_white (s : string) : bool :=
  match s with
  | EmptyString => true
  | String c rest => is_white_space c && all_white rest
  end.

(** An image held by the component is what [processFile] made of its file. *)
Definition asset_from_file (o : ImageFileState) : Prop :=
  mimeType (image o) = type (file o) /\
  image_type (type (file o)) /\
  base64 (image o) = nth_error (split "," (url (image o))) 1.

(** A result held by the component is a data URL over its own mime type. *)
Definition result_well_formed (r : EditedImage) : Prop :=
  image_type (edited_mimeType r) /\
  exists b, edited_url r = ("data:" ++ edited_mimeType r ++ ";base64," ++ b)%string.

Definition call_well_formed (c : EditCall) : Prop :=
  asset_from_file (call_original c) /\ trim (call_prompt c) <> "".

(** The values the [error] state takes. *)
Definition known_error (e : error_value) : Prop :=
  e = JsNull \/ e = JsUndefined \/ e = JsString INVALID_FILE_MESSAGE \/
  (exists m, e = JsString (FAILED_PREFIX ++ m)) \/ e = JsString UNKNOWN_MESSAGE.

Definition session_well_formed (ss : Session) : Prop :=
  (forall o, originalImage (app ss) = Some o -> asset_from_file o) /\
  (forall r, editedImage (app ss) = Some r -> result_well_formed r) /\
  (forall c, In c (editing ss) -> call_well_formed c) /\
  known_error (error (app ss)) /\
  (isLoading (app ss) = true -> reading ss <> [] \/ editing ss <> []).

(** More sample data: a file that is no image, and the sessions after its
    upload was rejected and while a photo is being read. *)
Definition notes_txt : File := {| name := "notes.txt"; type := "text/plain" |}.

Definition rejected_session : Session :=
  {| app := {| originalImage := None; editedImage := None; prompt := "";
               isLoading := false;
               error := JsString "Please select a valid image file." |};
     reading := []; editing := [] |}.

Definition reading_session : Session :=
  {| app := {| originalImage := None; editedImage := None; prompt := "";
               isLoading := true; error := JsNull |};
     reading := [photo_png]; editing := [] |}.

(** * Properties *)

(** ** The edit request adapter *)

Section EditRequestAdapter.

Variable remote : GenerateContentRequest -> completion GenerateContentResponse.
Variables (base64Data : option string) (mimeType prompt : string).

Let request := build_request base64Data mimeType prompt.

Lemma scan_parts_none (ps : list Part) :
  (forall p, In p ps -> inlineData p = None) -> scan_parts ps = Normal None.
Proof.
  induction ps as [|p ps IH]; intros H; simpl.
  - reflexivity.
  - rewrite (H p (or_introl eq_refl)). simpl.
    apply IH. intros q Hq. apply H. now right.
Qed.

Lemma scan_parts_first (pre post : list Part) (p : Part) (blob : Blob) :
  (forall q, In q pre -> inlineData q = None) ->
  inlineData p = Some blob ->
  scan_parts (pre ++ p :: post) = Normal (Some (data blob)).
Proof.
  intros Hpre Hp. induction pre as [|q pre IH]; simpl.
  - now rewrite Hp.
  - rewrite (Hpre q (or_introl eq_refl)). simpl.
    apply IH. intros q' Hq'. apply Hpre. now right.
Qed.

(** The guard of line 34 makes the unguarded path of line 35 safe. *)
Lemma find_image_guarded (candidate : option Candidate) :
  find_image candidate =
  match opt_member (opt_member candidate content) parts with
  | Some ps => scan_parts ps
  | None => Normal None
  end.
Proof.
  unfold find_image, member.
  destruct candidate as [c|]; simpl; [|reflexivity].
  destruct (content c) as [ct|]; simpl; [|reflexivity].
  destruct (parts ct) as [ps|]; reflexivity.
Qed.

Lemma scan_parts_no_crash (ps : list Part) (msg : string) :
  scan_parts ps <> Throw (TypeErrorObj msg).
Proof.
  induction ps as [|p ps IH]; simpl.
  - discriminate.
  - destruct (inlineData p) as [blob|]; simpl; [discriminate | exact IH].
Qed.

Lemma find_image_no_crash (candidate : option Candidate) (msg : string) :
  find_image candidate <> Throw (TypeErrorObj msg).
Proof.
  rewrite find_image_guarded.
  destruct (opt_member (opt_member candidate content) parts).
  - apply scan_parts_no_crash.
  - discriminate.
Qed.

Lemma parse_response_no_image (response : GenerateContentResponse) :
  no_inline_image response ->
  parse_response response = no_image_path (first_candidate response).
Proof.
  intros H. unfold parse_response. rewrite find_image_guarded.
  destruct (opt_member (opt_member (first_candidate response) content) parts)
    as [ps|] eqn:Hps.
  - rewrite (scan_parts_none ps (fun p => H ps p Hps)). reflexivity.
  - reflexivity.
Qed.

Lemma some_blocked_spec (response : GenerateContentResponse) :
  some_blocked (first_candidate response) = true <-> rating_blocked response.
Proof.
  unfold some_blocked, rating_blocked.
  destruct (first_candidate response) as [c|]; simpl.
  - destruct (safetyRatings c) as [ratings|] eqn:Hs; simpl.
    + rewrite existsb_exists. split.
      * intros (rating & Hin & Hb). exists c, ratings, rating.
        split; [reflexivity|]. split; [exact Hs|]. split; [exact Hin|].
        revert Hb. destruct (blocked rating) as [[|]|]; simpl; congruence.
      * intros (c' & ratings' & rating & Hc & Hr & Hin & Hb).
        injection Hc as <-. rewrite Hs in Hr. injection Hr as <-.
        exists rating. split; [assumption|]. now rewrite Hb.
    + split; [discriminate|].
      intros (c' & ratings' & rating & Hc & Hr & _). injection Hc as <-. congruence.
  - split; [discriminate|]. intros (c' & ? & ? & Hc & _). discriminate.
Qed.

(** Whatever leaves [editImage] as a failure went through the [catch]
    block: it is a wrapped [Error]. *)
Lemma editImage_failure_wrapped (e : js_thrown) :
  editImage remote base64Data mimeType prompt = Throw e ->
  (exists m, e = ErrorObj (FAILED_PREFIX ++ m)) \/ e = ErrorObj UNKNOWN_MESSAGE.
Proof.
  unfold editImage.
  destruct (response <- remote _ ;; parse_response response) as [d|err].
  - discriminate.
  - destruct err as [m|m|]; simpl; intros [= <-]; eauto.
Qed.

(** C1 (as amended): when no part of the first candidate carries inline
    image data, [editImage] fails with the safety message when a safety
    rating is marked blocked and with the no-image message otherwise, each
    wrapped by the [catch] block, so the message it leaves with is
    ["Failed to generate image: "] followed by the stated text. *)
Theorem C1_no_image_failure_is_wrapped (response : GenerateContentResponse) :
  remote request = Normal response ->
  no_inline_image response ->
  (rating_blocked response ->
   editImage remote base64Data mimeType prompt =
   Throw (ErrorObj "Failed to generate image: Image generation was blocked due to safety policies. Please try a different prompt.")) /\
  (~ rating_blocked response ->
   editImage remote base64Data mimeType prompt =
   Throw (ErrorObj "Failed to generate image: No image was generated. The model did not return an image.")).
Proof.
  intros Hr Hno. unfold editImage. fold request. rewrite Hr. simpl.
  rewrite (parse_response_no_image response Hno). unfold no_image_path.
  split; intros Hb.
  - apply some_blocked_spec in Hb. rewrite Hb. reflexivity.
  - destruct (some_blocked (first_candidate response)) eqn:E.
    + apply some_blocked_spec in E. contradiction.
    + reflexivity.
Qed.

(** C2: when the parts of the first candidate hold a part with inline
    image data, [editImage] returns the data of the first such part,
    whatever the other parts hold; so with three parts of which the
    first has none and the second has some, it returns the second's. *)
Theorem C2_first_inline_part_wins (response : GenerateContentResponse) :
  remote request = Normal response ->
  (forall pre p post blob,
     opt_member (opt_member (first_candidate response) content) parts
       = Some (pre ++ p :: post) ->
     (forall q, In q pre -> inlineData q = None) ->
     inlineData p = Some blob ->
     editImage remote base64Data mimeType prompt = Normal (data blob)) /\
  (forall text1 text2 p3 blob,
     opt_member (opt_member (first_candidate response) content) parts
       = Some [ {| text := text1; inlineData := None |};
                {| text := text2; inlineData := Some blob |};
                p3 ] ->
     editImage remote base64Data mimeType prompt = Normal (data blob)).
Proof.
  intros Hr.
  assert (G : forall pre p post blob,
     opt_member (opt_member (first_candidate response) content) parts
       = Some (pre ++ p :: post) ->
     (forall q, In q pre -> inlineData q = None) ->
     inlineData p = Some blob ->
     editImage remote base64Data mimeType prompt = Normal (data blob)).
  { intros pre p post blob Hps Hpre Hp.
    unfold editImage. fold request. rewrite Hr. simpl.
    unfold parse_response. rewrite find_image_guarded, Hps.
    rewrite (scan_parts_first pre post p blob Hpre Hp). reflexivity. }
  split; [exact G|].
  intros text1 text2 p3 blob Hps.
  apply (G [ {| text := text1; inlineData := None |} ]
           {| text := text2; inlineData := Some blob |} [p3] blob).
  - exact Hps.
  - intros q [<-|[]]. reflexivity.
  - reflexivity.
Qed.

(** C3: a remote call that throws an [Error] with message [m] makes
    [editImage] fail with ["Failed to generate image: " ++ m] (with
    ["timeout"]: ["Failed to generate image: timeout"]); one that throws a
    value that is no [Error] makes it fail with the unknown-error message;
    and every failure of [editImage] has one of the four kinds. *)
Theorem C3_remote_failure_is_wrapped :
  (forall e m,
     remote request = Throw e -> error_message e = Some m ->
     editImage remote base64Data mimeType prompt =
     Throw (ErrorObj ("Failed to generate image: " ++ m))) /\
  (remote request = Throw (ErrorObj "timeout") ->
   editImage remote base64Data mimeType prompt =
   Throw (ErrorObj "Failed to generate image: timeout")) /\
  (forall e,
     remote request = Throw e -> instanceof_Error e = false ->
     editImage remote base64Data mimeType prompt =
     Throw (ErrorObj "An unknown error occurred while generating the image.")) /\
  (forall e,
     editImage remote base64Data mimeType prompt = Throw e ->
     exists k, has_kind k e).
Proof.
  repeat split.
  - intros e m Hr Hm. unfold editImage. fold request. rewrite Hr. simpl.
    destruct e; simpl in Hm; try discriminate; injection Hm as <-; reflexivity.
  - intros Hr. unfold editImage. fold request. rewrite Hr. reflexivity.
  - intros e Hr He. unfold editImage. fold request. rewrite Hr. simpl.
    destruct e; simpl in He; try discriminate; reflexivity.
  - intros e He. destruct (editImage_failure_wrapped e He) as [[m ->] | ->].
    + exists RemoteCallFailure. simpl. eauto.
    + exists UnknownFailure. reflexivity.
Qed.

(** C10: whatever the shape of the response, the accesses of lines 31-47
    raise no [TypeError]: without candidates the no-image error is thrown,
    without content or parts the loop is skipped and the safety check of
    line 43 decides, without safety ratings (and without an image) the
    no-image error is thrown; and [editImage] ends with the image data or
    with one of the two wrapped failures. *)
Theorem C10_response_shape_is_guarded (response : GenerateContentResponse) :
  remote request = Normal response ->
  (forall msg, parse_response response <> Throw (TypeErrorObj msg)) /\
  (candidates response = None \/ candidates response = Some [] ->
   parse_response response = Throw (ErrorObj NO_IMAGE_MESSAGE)) /\
  (forall c,
     first_candidate response = Some c ->
     content c = None \/ content c = Some {| parts := None |} ->
     parse_response response = no_image_path (Some c)) /\
  (forall c,
     first_candidate response = Some c ->
     safetyRatings c = None ->
     no_inline_image response ->
     parse_response response = Throw (ErrorObj NO_IMAGE_MESSAGE)) /\
  ((exists d, editImage remote base64Data mimeType prompt = Normal d) \/
   editImage remote base64Data mimeType prompt
     = Throw (ErrorObj (FAILED_PREFIX ++ SAFETY_MESSAGE)) \/
   editImage remote base64Data mimeType prompt
     = Throw (ErrorObj (FAILED_PREFIX ++ NO_IMAGE_MESSAGE))).
Proof.
  intros Hr. repeat split.
  - intros msg. unfold parse_response.
    destruct (find_image (first_candidate response)) as [[d|]|e] eqn:Hf; simpl.
    + discriminate.
    + unfold no_image_path. destruct (some_blocked _); discriminate.
    + intros [= ->]. exact (find_image_no_crash _ msg Hf).
  - intros [H|H]; unfold parse_response, first_candidate; rewrite H; reflexivity.
  - intros c Hc Hct. unfold parse_response. rewrite find_image_guarded, Hc. simpl.
    destruct Hct as [-> | ->]; reflexivity.
  - intros c Hc Hs Hno. rewrite (parse_response_no_image response Hno), Hc.
    unfold no_image_path, some_blocked. simpl. rewrite Hs. reflexivity.
  - unfold editImage. fold request. rewrite Hr. simpl.
    unfold parse_response.
    destruct (find_image (first_candidate response)) as [[d|]|e] eqn:Hf; simpl.
    + left. eauto.
    + right. unfold no_image_path. destruct (some_blocked _); simpl; auto.
    + exfalso. revert Hf. rewrite find_image_guarded.
      destruct (opt_member _ parts) as [ps|]; [|discriminate].
      clear. induction ps as [|p ps IH]; simpl; [discriminate|].
      destruct (inlineData p); simpl; [discriminate | exact IH].
Qed.

End EditRequestAdapter.

Lemma empty_answer_no_image : no_inline_image empty_answer.
Proof. intros ps p H. discriminate H. Qed.

Lemma empty_answer_not_blocked : ~ rating_blocked empty_answer.
Proof. intros (c & ratings & rating & H & _). discriminate H. Qed.

Lemma blocked_answer_no_image : no_inline_image blocked_answer.
Proof.
  intros ps p H Hin. simpl in H. injection H as <-.
  destruct Hin as [<-|[]]. reflexivity.
Defined.

Lemma blocked_answer_blocked : rating_blocked blocked_answer.
Proof.
  unfold rating_blocked. simpl. eexists _, _, _.
  split; [reflexivity|]. split; [reflexivity|]. split; [left; reflexivity|]. reflexivity.
Defined.

(** C1 as stated fails: a response without candidates carries no image and
    no blocked rating, yet the failure does not carry the bare no-image
    message. *)
Lemma C1_bare_messages_refuted :
  ~ (forall remote base64Data mimeType prompt response,
       remote (build_request base64Data mimeType prompt) = Normal response ->
       no_inline_image response ->
       (rating_blocked response ->
        editImage remote base64Data mimeType prompt =
        Throw (ErrorObj "Image generation was blocked due to safety policies. Please try a different prompt.")) /\
       (~ rating_blocked response ->
        editImage remote base64Data mimeType prompt =
        Throw (ErrorObj "No image was generated. The model did not return an image."))).
Proof.
  intros H.
  destruct (H (fun _ => Normal empty_answer) None "image/png" "add sunglasses"
              empty_answer eq_refl empty_answer_no_image) as [_ H2].
  specialize (H2 empty_answer_not_blocked). discriminate H2.
Qed.

Lemma C1_witness :
  no_inline_image blocked_answer /\ rating_blocked blocked_answer /\
  editImage (fun _ => Normal blocked_answer) (Some "QUJD") "image/png" "add sunglasses" =
  Throw (ErrorObj "Failed to generate image: Image generation was blocked due to safety policies. Please try a different prompt.").
Proof.
  split; [exact blocked_answer_no_image|]. split; [exact blocked_answer_blocked|].
  exact (proj1 (C1_no_image_failure_is_wrapped
                  (fun _ => Normal blocked_answer) (Some "QUJD") "image/png"
                  "add sunglasses" blocked_answer eq_refl blocked_answer_no_image)
               blocked_answer_blocked).
Defined.

Lemma C2_witness :
  editImage (fun _ => image_answer "AAAA") (Some "QUJD") "image/png" "add sunglasses"
  = Normal "AAAA".
Proof.
  refine (proj1 (C2_first_inline_part_wins
                   (fun _ => image_answer "AAAA") (Some "QUJD") "image/png"
                   "add sunglasses" _ eq_refl)
                [] _ [] {| data := "AAAA"; blob_mimeType := "image/png" |}
                eq_refl _ eq_refl).
  intros q [].
Defined.

Lemma C3_witness :
  editImage (fun _ => Throw (ErrorObj "timeout")) (Some "QUJD") "image/png" "add sunglasses"
  = Throw (ErrorObj "Failed to generate image: timeout").
Proof.
  exact (proj1 (proj2 (C3_remote_failure_is_wrapped
                         (fun _ => Throw (ErrorObj "timeout")) (Some "QUJD")
                         "image/png" "add sunglasses")) eq_refl).
Defined.

Lemma C10_witness :
  parse_response empty_answer = Throw (ErrorObj NO_IMAGE_MESSAGE).
Proof.
  exact (proj1 (proj2 (C10_response_shape_is_guarded
                         (fun _ => Normal empty_answer) None "image/png"
                         "add sunglasses" empty_answer eq_refl))
               (or_introl eq_refl)).
Defined.

(** ** Splitting *)

Lemma split_not_nil (c : ascii) (s : string) : split c s <> [].
Proof.
  destruct s as [|d s]; simpl.
  - discriminate.
  - destruct (Ascii.eqb d c); [discriminate|].
    destruct (split c s); discriminate.
Qed.

Lemma split_free (c : ascii) (s : string) :
  free_of c s = true -> split c s = [s].
Proof.
  induction s as [|d s IH]; simpl; intros H.
  - reflexivity.
  - apply andb_prop in H as [Hd Hs].
    apply negb_true_iff in Hd. rewrite Hd, (IH Hs). reflexivity.
Qed.

Lemma split_at_first (c : ascii) (hdr rest : string) :
  free_of c hdr = true ->
  split c (hdr ++ String c rest) = hdr :: split c rest.
Proof.
  induction hdr as [|d hdr IH]; simpl; intros H.
  - now rewrite Ascii.eqb_refl.
  - apply andb_prop in H as [Hd Hs].
    apply negb_true_iff in Hd. rewrite Hd, (IH Hs). reflexivity.
Qed.

Lemma split_two_segments (c : ascii) (pre sub : string) :
  2 <= List.length (split c (pre ++ String c sub)).
Proof.
  induction pre as [|d pre IH]; simpl.
  - rewrite Ascii.eqb_refl. simpl.
    destruct (split c sub) eqn:E; [now apply split_not_nil in E | simpl; lia].
  - destruct (Ascii.eqb d c); simpl.
    + lia.
    + destruct (split c (pre ++ String c sub)); simpl in *; lia.
Qed.

Lemma last_split_after (c : ascii) (pre sub : string) (d : string) :
  last (split c (pre ++ String c sub)) d = last (split c sub) d.
Proof.
  induction pre as [|ch pre IH]; simpl.
  - rewrite Ascii.eqb_refl.
    destruct (split c sub) eqn:E; [now apply split_not_nil in E | reflexivity].
  - pose proof (split_two_segments c pre sub) as Hlen.
    destruct (Ascii.eqb ch c).
    + rewrite <- IH.
      destruct (split c (pre ++ String c sub)); [simpl in Hlen; lia | reflexivity].
    + rewrite <- IH.
      destruct (split c (pre ++ String c sub)) as [|seg [|seg' segs]];
        simpl in Hlen; try lia. reflexivity.
Qed.

Lemma nth_error_last {A : Type} (l : list A) (d : A) :
  l <> [] -> nth_error l (List.length l - 1) = Some (last l d).
Proof.
  induction l as [|x l IH]; intros H; [congruence|].
  destruct l as [|y l].
  - reflexivity.
  - replace (List.length (x :: y :: l) - 1) with (S (List.length (y :: l) - 1))
      by (simpl; lia).
    cbn [nth_error]. rewrite IH by discriminate. reflexivity.
Qed.

(** A string that holds [c] splits at its last occurrence. *)
Lemma cut_at_last (c : ascii) (s : string) :
  free_of c s = true \/
  exists pre sub, s = (pre ++ String c sub)%string /\ free_of c sub = true.
Proof.
  induction s as [|d s IH].
  - now left.
  - destruct IH as [Hfree | (pre & sub & -> & Hsub)].
    + destruct (Ascii.eqb_spec d c) as [->|Hne].
      * right. exists "", s. split; [reflexivity | exact Hfree].
      * left. simpl. rewrite Hfree.
        destruct (Ascii.eqb_spec d c); [contradiction | reflexivity].
    + right. exists (String d pre), sub. split; [reflexivity | exact Hsub].
Qed.

Lemma startsWith_not_free (s : string) :
  startsWith s "image/" = true -> free_of "/" s = false.
Proof.
  intros H.
  do 6 (destruct s as [|? s]; [discriminate H|];
        simpl in H; apply andb_prop in H as [Hc H];
        apply Ascii.eqb_eq in Hc; subst).
  reflexivity.
Qed.

(** ** The file ingestion adapter *)

(** C4: a file whose declared type does not begin with [image/] is
    rejected with ["Please select a valid image file."], and no read is
    requested. *)
Theorem C4_rejects_before_reading (reader : File -> read_event) (f : File) :
  startsWith (type f) "image/" = false ->
  processFile reader (Some f)
  = ([], Throw (ErrorObj "Please select a valid image file.")).
Proof.
  intros H. unfold processFile. rewrite H. reflexivity.
Qed.

Lemma C4_witness :
  processFile (fun _ => OnLoad "data:text/plain;base64,QUJD")
              (Some {| name := "notes.txt"; type := "text/plain" |})
  = ([], Throw (ErrorObj "Please select a valid image file.")).
Proof.
  exact (C4_rejects_before_reading (fun _ => OnLoad "data:text/plain;base64,QUJD")
           {| name := "notes.txt"; type := "text/plain" |} eq_refl).
Defined.

(** C5 as stated fails: for a data URL with a second comma the payload is
    not the whole content after the first comma. *)
Lemma C5_after_first_comma_refuted :
  ~ (forall reader f d hdr rest,
       startsWith (type f) "image/" = true ->
       reader f = OnLoad d ->
       d = (hdr ++ "," ++ rest)%string ->
       free_of "," hdr = true ->
       snd (processFile reader (Some f))
       = Normal {| url := d; base64 := Some rest; mimeType := type f |}).
Proof.
  intros H.
  specialize (H (fun _ => OnLoad odd_url) odd_file odd_url
                "data:image/x" "y;base64,QUJD" eq_refl eq_refl eq_refl eq_refl).
  discriminate H.
Qed.

(** C5 (as amended): after a successful read of data URL [d] from a file
    of declared type [t], [processFile] resolves with [url = d],
    [mimeType = t] and, as [base64], the text between the first comma of
    [d] and its second comma, or its end when there is no second comma;
    that is the whole content after the first comma when that content
    holds no comma.  Without any comma in [d] the payload is undefined. *)
Theorem C5_payload_is_second_segment (reader : File -> read_event) (f : File) (d : string) :
  startsWith (type f) "image/" = true ->
  reader f = OnLoad d ->
  exists asset,
    processFile reader (Some f) = ([ReadAsDataURL f], Normal asset) /\
    url asset = d /\
    mimeType asset = type f /\
    (forall hdr body,
       d = (hdr ++ "," ++ body)%string ->
       free_of "," hdr = true -> free_of "," body = true ->
       base64 asset = Some body) /\
    (forall hdr seg rest,
       d = (hdr ++ "," ++ seg ++ "," ++ rest)%string ->
       free_of "," hdr = true -> free_of "," seg = true ->
       base64 asset = Some seg) /\
    (free_of "," d = true -> base64 asset = None).
Proof.
  intros Ht Hr. exists (processFile_onload f d).
  unfold processFile. rewrite Ht, Hr. simpl.
  repeat split.
  - intros hdr body -> Hh Hb.
    change (hdr ++ "," ++ body)%string with (hdr ++ String "," body)%string.
    rewrite (split_at_first _ hdr body Hh), (split_free _ body Hb). reflexivity.
  - intros hdr seg rest -> Hh Hs.
    change (hdr ++ "," ++ seg ++ "," ++ rest)%string
      with (hdr ++ String "," (seg ++ String "," rest))%string.
    rewrite (split_at_first _ hdr _ Hh), (split_at_first _ seg rest Hs). reflexivity.
  - intros Hd. rewrite (split_free _ d Hd). reflexivity.
Qed.

Lemma C5_witness :
  exists asset,
    processFile (fun _ => OnLoad "data:image/png;base64,QUJD") (Some photo_png)
    = ([ReadAsDataURL photo_png], Normal asset) /\
    url asset = "data:image/png;base64,QUJD" /\
    mimeType asset = "image/png" /\
    base64 asset = Some "QUJD".
Proof.
  destruct (C5_payload_is_second_segment
              (fun _ => OnLoad "data:image/png;base64,QUJD") photo_png
              "data:image/png;base64,QUJD" eq_refl eq_refl)
    as (asset & Hp & Hu & Hm & Hb & _).
  exists asset. repeat split; try assumption.
  exact (Hb "data:image/png;base64" "QUJD" eq_refl eq_refl eq_refl).
Defined.

(** ** The sequencer: submitting *)

Lemma trim_empty_of_empty (p : string) : p = "" -> trim p = "".
Proof. intros ->. reflexivity. Qed.

Lemma handleSubmit_start_inv (s s1 : AppState) (c : EditCall) :
  handleSubmit_start s = Some (s1, c) ->
  originalImage s = Some (call_original c) /\
  truthy_string (trim (prompt s)) = true /\
  isLoading s = false /\
  call_prompt c = prompt s /\
  s1 = setEditedImage None (setError JsNull (setIsLoading true s)).
Proof.
  unfold handleSubmit_start.
  destruct (originalImage s) as [o|]; simpl; [|discriminate].
  destruct (truthy_string (trim (prompt s))); simpl; [|discriminate].
  destruct (isLoading s); simpl; [discriminate|].
  intros [= <- <-]. repeat split.
Qed.

Lemma submit_gated_while_loading (s : AppState) :
  isLoading s = true -> handleSubmit_start s = None.
Proof.
  intros H. unfold handleSubmit_start. rewrite H.
  now rewrite !orb_true_r.
Qed.

(** C6: when a submitted request resolves with payload [b], the result
    held is the data URL ["data:" ++ mime ++ ";base64," ++ b] with the mime
    type of the image the request was made for, and the state is
    HasEdited (for ["image/png"] and ["AAAA"]:
    ["data:image/png;base64,AAAA"]); when it fails, the error held is the
    failure's own message (for a remote call that threw an [Error] with
    message [m]: ["Failed to generate image: " ++ m]), it is rendered in
    the banner, the image is still held, the result cleared before the
    call stays cleared and the state is HasOriginal. *)
Theorem C6_edit_resolution (s s1 : AppState) (c : EditCall) :
  handleSubmit_start s = Some (s1, c) ->
  (originalImage s = Some (call_original c) /\
   phase_of s1 = Generating /\ editedImage s1 = None) /\
  (forall b,
     editedImage (handleSubmit_settled c (Normal b) s1)
     = Some {| edited_url := "data:" ++ mimeType (image (call_original c))
                             ++ ";base64," ++ b;
               edited_mimeType := mimeType (image (call_original c)) |} /\
     originalImage (handleSubmit_settled c (Normal b) s1) = originalImage s /\
     phase_of (handleSubmit_settled c (Normal b) s1) = HasEdited) /\
  (mimeType (image (call_original c)) = "image/png" ->
   editedImage (handleSubmit_settled c (Normal "AAAA") s1)
   = Some {| edited_url := "data:image/png;base64,AAAA";
             edited_mimeType := "image/png" |}) /\
  (forall e,
     error (handleSubmit_settled c (Throw e) s1) = message_of e /\
     originalImage (handleSubmit_settled c (Throw e) s1) = originalImage s /\
     editedImage (handleSubmit_settled c (Throw e) s1) = None /\
     phase_of (handleSubmit_settled c (Throw e) s1) = HasOriginal) /\
  (forall remote e,
     run_call remote c = Throw e ->
     exists msg, error (handleSubmit_settled c (Throw e) s1) = JsString msg) /\
  (forall m,
     error (handleSubmit_settled c (Throw (ErrorObj m)) s1) = JsString m) /\
  (forall remote e,
     run_call remote c = Throw e ->
     ((exists m, error (handleSubmit_settled c (Throw e) s1)
                 = JsString ("Failed to generate image: " ++ m)) \/
      error (handleSubmit_settled c (Throw e) s1)
      = JsString "An unknown error occurred while generating the image.") /\
     banner_shown (handleSubmit_settled c (Throw e) s1) = true) /\
  (forall remote m,
     remote (build_request (base64 (image (call_original c)))
               (mimeType (image (call_original c))) (prompt s))
     = Throw (ErrorObj m) ->
     handleSubmit remote s
     = {| originalImage := originalImage s; editedImage := None;
          prompt := prompt s; isLoading := false;
          error := JsString ("Failed to generate image: " ++ m) |}) /\
  (forall remote b,
     run_call remote c = Normal b ->
     handleSubmit remote s
     = {| originalImage := originalImage s;
          editedImage :=
            Some {| edited_url := "data:" ++ mimeType (image (call_original c))
                                  ++ ";base64," ++ b;
                    edited_mimeType := mimeType (image (call_original c)) |};
          prompt := prompt s; isLoading := false; error := JsNull |}).
Proof.
  intros H. pose proof H as Hstart.
  apply handleSubmit_start_inv in H as (Ho & _ & _ & Hp & ->).
  split; [|split; [|split; [|split; [|split; [|split; [|split; [|split]]]]]]].
  - unfold phase_of. simpl. rewrite Ho. auto.
  - intros b. unfold phase_of, call_mimeType. simpl. rewrite Ho. auto.
  - intros Hm. unfold handleSubmit_settled, call_mimeType. rewrite Hm. reflexivity.
  - intros e. unfold phase_of. simpl. rewrite Ho. auto.
  - intros remote e He. simpl.
    destruct (editImage_failure_wrapped _ _ _ _ _ He) as [[m ->] | ->]; simpl; eauto.
  - intros m. reflexivity.
  - intros remote e He.
    destruct (editImage_failure_wrapped _ _ _ _ _ He) as [[m ->] | ->].
    + split; [left; exists m; reflexivity | reflexivity].
    + split; [right; reflexivity | reflexivity].
  - intros remote m Hr. unfold handleSubmit. rewrite Hstart.
    unfold run_call, call_base64, call_mimeType, editImage.
    rewrite Hp, Hr. reflexivity.
  - intros remote b Hb. unfold handleSubmit. rewrite Hstart, Hb. reflexivity.
Qed.

Lemma C6_witness :
  handleSubmit (fun _ => image_answer "AAAA")
    (setPrompt "add sunglasses"
       (handleImageUpload (fun _ => OnLoad "data:image/png;base64,QUJD")
          photo_png initial_state))
  = {| originalImage := Some photo_asset;
       editedImage := Some {| edited_url := "data:image/png;base64,AAAA";
                              edited_mimeType := "image/png" |};
       prompt := "add sunglasses"; isLoading := false; error := JsNull |} /\
  editedImage
    (handleSubmit_settled
       {| call_original := photo_asset; call_prompt := "add sunglasses" |}
       (Normal "AAAA")
       (setEditedImage None (setError JsNull (setIsLoading true ready_state))))
  = Some {| edited_url := "data:image/png;base64,AAAA";
            edited_mimeType := "image/png" |} /\
  handleSubmit (fun _ => Throw (ErrorObj "timeout")) ready_state
  = {| originalImage := Some photo_asset; editedImage := None;
       prompt := "add sunglasses"; isLoading := false;
       error := JsString "Failed to generate image: timeout" |} /\
  banner_shown
    (handleSubmit_settled
       {| call_original := photo_asset; call_prompt := "add sunglasses" |}
       (Throw (ErrorObj "Failed to generate image: timeout"))
       (setEditedImage None (setError JsNull (setIsLoading true ready_state))))
  = true.
Proof.
  pose proof (C6_edit_resolution ready_state _ _ eq_refl)
    as (_ & _ & Hpng & _ & _ & _ & Hfail & Hthrow & Hok).
  split; [exact (Hok (fun _ => image_answer "AAAA") "AAAA" eq_refl)|].
  split; [exact (Hpng eq_refl)|].
  split; [exact (Hthrow (fun _ => Throw (ErrorObj "timeout")) "timeout" eq_refl)|].
  exact (proj2 (Hfail (fun _ => Throw (ErrorObj "timeout"))
                  (ErrorObj "Failed to generate image: timeout") eq_refl)).
Defined.

(** C8 as stated fails: with blanks around the typed prompt the call is
    made, and the prompt it passes is not trimmed. *)
Lemma C8_trimmed_prompt_refuted :
  ~ (forall s s1 c,
       handleSubmit_start s = Some (s1, c) ->
       originalImage s <> None /\
       isLoading s = false /\
       call_prompt c <> "" /\
       trim (call_prompt c) = call_prompt c).
Proof.
  intros H.
  destruct (H padded_prompt_state _ _ eq_refl) as (_ & _ & _ & Ht).
  discriminate Ht.
Qed.

(** C8 (as amended): whenever [handleSubmit] calls [editImage], an image
    is held, the in-flight flag is not set (and it is set by the submit,
    which gates out a further submit), and the prompt passed is the typed
    prompt as it is, untrimmed, whose trimmed form is not empty; so the
    prompt passed is not empty either. *)
Theorem C8_submit_passes_typed_prompt (s s1 : AppState) (c : EditCall) :
  handleSubmit_start s = Some (s1, c) ->
  originalImage s = Some (call_original c) /\
  isLoading s = false /\
  isLoading s1 = true /\
  handleSubmit_start s1 = None /\
  call_prompt c = prompt s /\
  (forall remote,
     run_call remote c
     = editImage remote (base64 (image (call_original c)))
         (mimeType (image (call_original c))) (prompt s)) /\
  trim (call_prompt c) <> "" /\
  call_prompt c <> "".
Proof.
  intros H. apply handleSubmit_start_inv in H as (Ho & Ht & Hl & Hp & ->).
  repeat split; try assumption.
  - apply submit_gated_while_loading. reflexivity.
  - intros remote. unfold run_call, call_base64, call_mimeType. now rewrite Hp.
  - rewrite Hp. intros E. rewrite E in Ht. discriminate.
  - rewrite Hp. intros E. rewrite (trim_empty_of_empty _ E) in Ht. discriminate.
Qed.

Lemma C8_witness :
  exists s1 c,
    handleSubmit_start padded_prompt_state = Some (s1, c) /\
    call_prompt c = "  add sunglasses " /\
    trim (call_prompt c) <> "" /\
    isLoading s1 = true.
Proof.
  eexists _, _. split; [reflexivity|].
  destruct (C8_submit_passes_typed_prompt padded_prompt_state _ _ eq_refl)
    as (_ & _ & Hl & _ & Hp & _ & Ht & _).
  split; [exact Hp|]. split; [exact Ht | exact Hl].
Defined.

(** ** The sequencer: what each handler keeps *)

Lemma handleClear_idle (s : AppState) : handleClear s = initial_state.
Proof. reflexivity. Qed.

Lemma upload_keeps_result_with_asset (reader : File -> read_event) (f : File) (s : AppState) :
  result_needs_asset (handleImageUpload reader f s) = true.
Proof.
  unfold handleImageUpload, result_needs_asset.
  destruct (snd (processFile reader (Some f))); reflexivity.
Qed.

Lemma submit_keeps_result_with_asset
    (remote : GenerateContentRequest -> completion GenerateContentResponse) (s : AppState) :
  result_needs_asset s = true -> result_needs_asset (handleSubmit remote s) = true.
Proof.
  intros H. unfold handleSubmit.
  destruct (handleSubmit_start s) as [[s1 c]|] eqn:E; [|exact H].
  apply handleSubmit_start_inv in E as (Ho & _ & _ & _ & ->).
  unfold result_needs_asset.
  destruct (run_call remote c); simpl; try rewrite Ho; reflexivity.
Qed.

Lemma settled_keeps_result_with_asset (c : EditCall) (r : completion string) (s : AppState) :
  originalImage s <> None ->
  result_needs_asset (handleSubmit_settled c r s) = true.
Proof.
  intros H. unfold result_needs_asset.
  destruct r; simpl; destruct (originalImage s); try congruence;
    destruct (editedImage s); reflexivity.
Qed.

(** Whatever the page did in between, a resolved call stores a result
    built from the image it was made for, and touches neither the image
    held nor the prompt. *)
Lemma settled_result_of_call (c : EditCall) (b : string) (s : AppState) :
  handleSubmit_settled c (Normal b) s
  = {| originalImage := originalImage s;
       editedImage := Some {| edited_url := "data:" ++ call_mimeType c ++ ";base64," ++ b;
                              edited_mimeType := call_mimeType c |};
       prompt := prompt s; isLoading := false; error := error s |}.
Proof. reflexivity. Qed.

Lemma padded_prompt_state_reachable :
  run padded_prompt_typed initial_session
  = Some {| app := padded_prompt_state; reading := []; editing := [] |}.
Proof. reflexivity. Qed.

(** [handleClear] resets the in-flight flag without ending the call: a
    second call can be made while the first is still pending. *)
Lemma second_call_while_first_pending :
  exists ss c1 c2,
    run (cleared_in_flight ++
         [ ChooseFile photo_png;
           ReadSettled 0 (OnLoad "data:image/png;base64,QUJD");
           TypePrompt "add a hat";
           SubmitForm ]) initial_session = Some ss /\
    editing ss = [c1; c2] /\
    call_prompt c1 = "add sunglasses" /\ call_prompt c2 = "add a hat".
Proof.
  let r := eval vm_compute in
    (run (cleared_in_flight ++
          [ ChooseFile photo_png;
            ReadSettled 0 (OnLoad "data:image/png;base64,QUJD");
            TypePrompt "add a hat";
            SubmitForm ]) initial_session) in
  match r with
  | Some ?ss =>
      match eval vm_compute in (editing ss) with
      | [?c1; ?c2] => exists ss, c1, c2
      end
  end.
  split; [vm_compute; reflexivity|].
  split; [reflexivity|]. split; reflexivity.
Qed.

(** C7 fails on the code: after upload, prompt and submit, the image is
    removed while the call is in flight; the session then holds neither
    image nor result, and when the call resolves with an image the result
    is stored although no original image is held. *)
Theorem C7_late_result_without_image :
  exists ss c,
    run cleared_in_flight initial_session = Some ss /\
    editing ss = [c] /\
    app ss = initial_state /\
    result_needs_asset (app ss) = true /\
    forall b,
      exists ss',
        apply_event (EditSettled 0 (image_answer b)) ss = Some ss' /\
        originalImage (app ss') = None /\
        editedImage (app ss')
        = Some {| edited_url := "data:image/png;base64," ++ b;
                  edited_mimeType := "image/png" |} /\
        result_needs_asset (app ss') = false.
Proof.
  eexists _, _. split; [reflexivity|].
  split; [reflexivity|]. split; [reflexivity|]. split; [reflexivity|].
  intros b. eexists. split; [reflexivity|].
  split; [reflexivity|]. split; reflexivity.
Qed.

(** ** The sequencer: media types held by a session *)

Lemma processFile_resolved (reader : File -> read_event) (f : File) (details : ImageDetails) :
  snd (processFile reader (Some f)) = Normal details ->
  image_type (mimeType details).
Proof.
  unfold processFile, image_type.
  destruct (startsWith (type f) "image/") eqn:E; simpl; [|discriminate].
  destruct (reader f); [|discriminate].
  intros [= <-]. exact E.
Qed.

Lemma In_remove_nth {A : Type} (n : nat) (l : list A) (x : A) :
  In x (remove_nth n l) -> In x l.
Proof.
  revert n. induction l as [|y l IH]; intros n; [destruct n; intros []|].
  destruct n as [|n]; simpl.
  - auto.
  - intros [->|H]; [now left | right; eauto].
Qed.

Lemma apply_event_media_types (ev : event) (ss ss' : Session) :
  media_types_checked ss ->
  apply_event ev ss = Some ss' ->
  media_types_checked ss'.
Proof.
  intros (Ho & He & Hc) H.
  destruct ev as [f | n answer | v | | n answer | | ]; unfold apply_event in H.
  - destruct (placeholder_shown (app ss)); [|discriminate].
    injection H as <-. split; [|split]; simpl.
    + exact Ho.
    + discriminate.
    + exact Hc.
  - destruct (nth_error (reading ss) n) as [f|]; [|discriminate].
    remember (snd (processFile (fun _ => answer) (Some f))) as r eqn:E.
    symmetry in E. injection H as <-. split; [|split]; cbn [app reading editing].
    + destruct r as [details|e]; simpl.
      * intros o [= <-]. simpl. exact (processFile_resolved _ _ _ E).
      * discriminate.
    + destruct r; simpl; exact He.
    + exact Hc.
  - destruct (textarea_enabled (app ss)); [|discriminate].
    injection H as <-. split; [|split]; simpl; assumption.
  - destruct (controls_shown (app ss)); [|discriminate].
    destruct (handleSubmit_start (app ss)) as [[s1 c]|] eqn:E.
    + injection H as <-.
      apply handleSubmit_start_inv in E as (Hs & _ & _ & _ & ->).
      split; [|split]; simpl.
      * exact Ho.
      * discriminate.
      * intros c' Hin. apply in_app_or in Hin as [Hin | [<- | []]].
        -- now apply Hc.
        -- apply Ho. exact Hs.
    + injection H as <-. split; [|split]; assumption.
  - destruct (nth_error (editing ss) n) as [c|] eqn:E; [|discriminate].
    remember (run_call (fun _ => answer) c) as r eqn:Er.
    injection H as <-. apply nth_error_In in E.
    split; [|split]; cbn [app reading editing].
    + destruct r; simpl; exact Ho.
    + destruct r; simpl.
      * intros r [= <-]. simpl. now apply Hc.
      * exact He.
    + intros c' Hin. apply Hc. eapply In_remove_nth. exact Hin.
  - destruct (controls_shown (app ss)); [|discriminate].
    injection H as <-. split; [|split]; simpl; try discriminate. exact Hc.
  - destruct (banner_shown (app ss)); [|discriminate].
    injection H as <-. split; [|split]; simpl; assumption.
Qed.

Lemma run_media_types (evs : list event) (ss ss' : Session) :
  media_types_checked ss ->
  run evs ss = Some ss' ->
  media_types_checked ss'.
Proof.
  revert ss. induction evs as [|ev evs IH]; intros ss Hm H; simpl in H.
  - now injection H as <-.
  - destruct (apply_event ev ss) as [ss1|] eqn:E; [|discriminate].
    exact (IH ss1 (apply_event_media_types ev ss ss1 Hm E) H).
Qed.

Lemma reachable_media_types (ss : Session) :
  reachable ss -> media_types_checked ss.
Proof.
  intros [evs H]. apply (run_media_types evs initial_session); [|exact H].
  split; [|split]; simpl; try discriminate. intros c [].
Qed.

Lemma getFileExtension_last_segment (tp sub : string) :
  free_of "/" sub = true ->
  getFileExtension (tp ++ "/" ++ sub)
  = if truthy_string sub then sub else "png".
Proof.
  intros H. unfold getFileExtension.
  change (tp ++ "/" ++ sub)%string with (tp ++ String "/" sub)%string.
  rewrite (nth_error_last _ "") by apply split_not_nil.
  rewrite last_split_after, (split_free _ sub H). reflexivity.
Qed.

(** C9: the download extension of a mime type [tp/sub] is [sub], the text
    after the slash, and ["png"] when that text is empty; and the mime type
    of every result a session can hold has that form. *)
Theorem C9_extension_is_subtype :
  (forall tp sub,
     free_of "/" sub = true ->
     getFileExtension (tp ++ "/" ++ sub) = if truthy_string sub then sub else "png") /\
  (forall ss r,
     reachable ss ->
     editedImage (app ss) = Some r ->
     exists tp sub,
       edited_mimeType r = (tp ++ "/" ++ sub)%string /\
       free_of "/" sub = true /\
       getFileExtension (edited_mimeType r)
       = if truthy_string sub then sub else "png").
Proof.
  split; [exact getFileExtension_last_segment|].
  intros ss r Hr He.
  destruct (reachable_media_types ss Hr) as (_ & Hm & _).
  specialize (Hm r He). apply startsWith_not_free in Hm.
  destruct (cut_at_last "/" (edited_mimeType r)) as [Hf | (tp & sub & E & Hs)].
  - congruence.
  - exists tp, sub. split; [exact E|]. split; [exact Hs|].
    rewrite E. exact (getFileExtension_last_segment tp sub Hs).
Qed.

Lemma C9_witness :
  reachable edited_session /\
  getFileExtension "image/png" = "png" /\
  getFileExtension "image/" = "png" /\
  exists tp sub,
    edited_mimeType edited_result = (tp ++ "/" ++ sub)%string /\
    free_of "/" sub = true /\
    getFileExtension (edited_mimeType edited_result)
    = if truthy_string sub then sub else "png".
Proof.
  assert (R : reachable edited_session) by (exists edit_completed; reflexivity).
  split; [exact R|].
  split; [exact (proj1 C9_extension_is_subtype "image" "png" eq_refl)|].
  split; [exact (proj1 C9_extension_is_subtype "image" "" eq_refl)|].
  exact (proj2 C9_extension_is_subtype edited_session edited_result R eq_refl).
Defined.

(** ** Further properties of the edit request adapter *)

Lemma scan_parts_found (ps : list Part) (d : string) :
  scan_parts ps = Normal (Some d) ->
  exists pre p post blob,
    ps = pre ++ p :: post /\
    (forall q, In q pre -> inlineData q = None) /\
    inlineData p = Some blob /\
    data blob = d.
Proof.
  induction ps as [|q ps IH]; simpl; [discriminate|].
  destruct (inlineData q) as [blob|] eqn:E; simpl.
  - intros [= <-]. exists [], q, ps, blob.
    split; [reflexivity|]. split; [intros ? []|]. split; [exact E | reflexivity].
  - intros H. destruct (IH H) as (pre & p & post & blob & -> & Hpre & Hp & Hd).
    exists (q :: pre), p, post, blob.
    split; [reflexivity|]. split; [|split; assumption].
    intros q' [<-|Hin]; [exact E | now apply Hpre].
Qed.

(** [editImage] resolves only with image data of the response: when it
    returns [d], the remote call returned a response whose first candidate
    has parts, and [d] is the data of the first part with inline data. *)
Theorem editImage_resolves_only_with_image
    (remote : GenerateContentRequest -> completion GenerateContentResponse)
    (base64Data : option string) (mimeType prompt d : string) :
  editImage remote base64Data mimeType prompt = Normal d ->
  exists response pre p post blob,
    remote (build_request base64Data mimeType prompt) = Normal response /\
    opt_member (opt_member (first_candidate response) content) parts
      = Some (pre ++ p :: post) /\
    (forall q, In q pre -> inlineData q = None) /\
    inlineData p = Some blob /\
    data blob = d.
Proof.
  unfold editImage.
  destruct (remote (build_request base64Data mimeType prompt)) as [response|e] eqn:Hr;
    simpl.
  - unfold parse_response. rewrite find_image_guarded.
    destruct (opt_member (opt_member (first_candidate response) content) parts)
      as [ps|] eqn:Hps; simpl.
    + destruct (scan_parts ps) as [[d'|]|e] eqn:Hs; simpl.
      * intros [= <-].
        destruct (scan_parts_found ps d' Hs) as (pre & p & post & blob & -> & H).
        exists response, pre, p, post, blob. split; [reflexivity|]. split; [exact Hps|].
        exact H.
      * unfold no_image_path. destruct (some_blocked _); discriminate.
      * destruct e; discriminate.
    + unfold no_image_path. destruct (some_blocked _); discriminate.
  - destruct e; discriminate.
Qed.

Lemma editImage_resolves_only_with_image_witness :
  exists response pre p post blob,
    image_answer "AAAA" = Normal response /\
    opt_member (opt_member (first_candidate response) content) parts
      = Some (pre ++ p :: post) /\
    (forall q, In q pre -> inlineData q = None) /\
    inlineData p = Some blob /\
    data blob = "AAAA".
Proof.
  exact (editImage_resolves_only_with_image
           (fun _ => image_answer "AAAA") (Some "QUJD") "image/png"
           "add sunglasses" "AAAA" eq_refl).
Defined.

(** ** Further properties of an upload *)

(** Uploading a file that is no image ends with the invalid-file message
    in the error banner, no image and no result held, the prompt as it
    was, and nothing read. *)
Theorem upload_of_non_image_shows_message
    (reader : File -> read_event) (f : File) (s : AppState) :
  startsWith (type f) "image/" = false ->
  handleImageUpload reader f s
  = {| originalImage := None; editedImage := None; prompt := prompt s;
       isLoading := false;
       error := JsString "Please select a valid image file." |} /\
  banner_shown (handleImageUpload reader f s) = true /\
  fst (processFile reader (Some f)) = [].
Proof.
  intros H. unfold handleImageUpload, processFile. rewrite H.
  repeat split.
Qed.

Lemma upload_of_non_image_shows_message_witness :
  handleImageUpload (fun _ => OnLoad "data:text/plain;base64,QUJD") notes_txt initial_state
  = app rejected_session.
Proof.
  exact (proj1 (upload_of_non_image_shows_message
                  (fun _ => OnLoad "data:text/plain;base64,QUJD") notes_txt
                  initial_state eq_refl)).
Defined.

(** When the reader reports an error for an image file, the upload ends
    with no image and no result, and without error banner: the rejection
    carries the reader's event, whose [message] is undefined. *)
Theorem upload_read_failure_is_silent
    (reader : File -> read_event) (f : File) (s : AppState) :
  startsWith (type f) "image/" = true ->
  reader f = OnError ->
  handleImageUpload reader f s
  = {| originalImage := None; editedImage := None; prompt := prompt s;
       isLoading := false; error := JsUndefined |} /\
  banner_shown (handleImageUpload reader f s) = false /\
  placeholder_shown (handleImageUpload reader f s) = true.
Proof.
  intros Ht Hr. unfold handleImageUpload, processFile. rewrite Ht, Hr.
  repeat split.
Qed.

Lemma upload_read_failure_is_silent_witness :
  banner_shown (handleImageUpload (fun _ => OnError) photo_png initial_state) = false.
Proof.
  exact (proj1 (proj2 (upload_read_failure_is_silent
                         (fun _ => OnError) photo_png initial_state eq_refl eq_refl))).
Defined.

(** A successful upload holds the image with the data URL read, the
    file's type and the file itself, drops any earlier result and error,
    keeps the prompt, and leaves the state HasOriginal. *)
Theorem upload_success_holds_image
    (reader : File -> read_event) (f : File) (d : string) (s : AppState) :
  startsWith (type f) "image/" = true ->
  reader f = OnLoad d ->
  handleImageUpload reader f s
  = {| originalImage :=
         Some {| image := {| url := d;
                             base64 := nth_error (split "," d) 1;
                             mimeType := type f |};
                 file := f |};
       editedImage := None; prompt := prompt s;
       isLoading := false; error := JsNull |} /\
  phase_of (handleImageUpload reader f s) = HasOriginal.
Proof.
  intros Ht Hr. unfold handleImageUpload, processFile. rewrite Ht, Hr.
  split; reflexivity.
Qed.

Lemma upload_success_holds_image_witness :
  originalImage
    (handleImageUpload (fun _ => OnLoad "data:image/png;base64,QUJD") photo_png
       initial_state)
  = Some photo_asset.
Proof.
  exact (f_equal originalImage
           (proj1 (upload_success_holds_image
                     (fun _ => OnLoad "data:image/png;base64,QUJD") photo_png
                     "data:image/png;base64,QUJD" initial_state eq_refl eq_refl))).
Defined.

(** ** Further properties of the download name *)

Lemma split_segments_free (c : ascii) (s : string) :
  Forall (fun seg => free_of c seg = true) (split c s).
Proof.
  induction s as [|d s IH]; simpl.
  - constructor; [reflexivity | constructor].
  - destruct (Ascii.eqb d c) eqn:E.
    + constructor; [reflexivity | exact IH].
    + destruct (split c s) as [|seg segs]; inversion IH; subst;
        constructor; simpl; try rewrite E; simpl; auto.
Qed.

Lemma last_in {A : Type} (l : list A) (d : A) : l <> [] -> In (last l d) l.
Proof.
  induction l as [|x l IH]; intros H; [congruence|].
  destruct l as [|y l].
  - now left.
  - right. apply IH. discriminate.
Qed.

Lemma free_of_app (c : ascii) (s t : string) :
  free_of c (s ++ t) = free_of c s && free_of c t.
Proof.
  induction s as [|d s IH]; simpl.
  - reflexivity.
  - rewrite IH. now rewrite andb_assoc.
Qed.

(** Whatever the mime type, the extension is not empty and holds no
    slash; so the download name holds no slash and does not end in its
    dot. *)
Theorem extension_is_a_file_name_part (m : string) (r : EditedImage) :
  (getFileExtension m <> "" /\ free_of "/" (getFileExtension m) = true) /\
  (free_of "/" (download_name r) = true /\
   exists ext, download_name r = ("edited-image." ++ ext)%string /\ ext <> "").
Proof.
  assert (G : forall m', getFileExtension m' <> "" /\
                         free_of "/" (getFileExtension m') = true).
  { intros m'. unfold getFileExtension.
    rewrite (nth_error_last _ "") by apply split_not_nil.
    pose proof (split_segments_free "/" m') as Hall.
    rewrite Forall_forall in Hall.
    specialize (Hall _ (last_in (split "/" m') "" (split_not_nil _ _))).
    destruct (last (split "/" m') "") as [|ch rest]; simpl.
    - split; [discriminate | reflexivity].
    - split; [discriminate | exact Hall]. }
  split; [exact (G m)|].
  destruct (G (edited_mimeType r)) as [Hne Hfree].
  split.
  - unfold download_name. rewrite free_of_app, Hfree. reflexivity.
  - exists (getFileExtension (edited_mimeType r)). split; [reflexivity | exact Hne].
Qed.

(** For a mime type without slash, the extension is the mime type itself,
    and ["png"] only when it is empty. *)
Theorem extension_without_slash (m : string) :
  free_of "/" m = true ->
  getFileExtension m = if truthy_string m then m else "png".
Proof.
  intros H. unfold getFileExtension. rewrite (split_free _ m H). reflexivity.
Qed.

Lemma extension_without_slash_witness :
  getFileExtension "image" = "image" /\ getFileExtension "" = "png".
Proof.
  split.
  - exact (extension_without_slash "image" eq_refl).
  - exact (extension_without_slash "" eq_refl).
Defined.

(** ** Further properties of a submit *)

Lemma trimStart_white (s : string) : all_white s = true -> trimStart s = "".
Proof.
  induction s as [|c s IH]; simpl; [reflexivity|].
  intros H. apply andb_prop in H as [Hc Hs]. rewrite Hc. exact (IH Hs).
Qed.

Lemma trimStart_keeps_first (s : string) :
  trimStart s = "" \/
  exists c rest, trimStart s = String c rest /\ is_white_space c = false.
Proof.
  induction s as [|c s IH]; simpl.
  - now left.
  - destruct (is_white_space c) eqn:E; [exact IH|].
    right. exists c, s. split; [reflexivity | exact E].
Qed.

Lemma trimStart_empty_white (s : string) : trimStart s = "" -> all_white s = true.
Proof.
  induction s as [|c s IH]; simpl; [reflexivity|].
  destruct (is_white_space c); [exact IH | discriminate].
Qed.

Lemma trim_empty_iff (s : string) : trim s = "" <-> all_white s = true.
Proof.
  unfold trim. split.
  - intros H. destruct (trimStart_keeps_first s) as [E | (c & rest & E & Hc)].
    + exact (trimStart_empty_white s E).
    + rewrite E in H. simpl in H. rewrite Hc in H.
      destruct (trimEnd rest); discriminate.
  - intros H. rewrite (trimStart_white s H). reflexivity.
Qed.

(** A prompt of one no-break space is blank: the guard of line 84 returns
    early and no call is made. *)
Lemma nbsp_prompt_is_ignored :
  trim (prompt nbsp_prompt_state) = "" /\
  handleSubmit_start nbsp_prompt_state = None.
Proof. split; reflexivity. Qed.

(** A submit does nothing exactly when no image is held, the prompt
    consists of white space only (or is empty), or a request is marked in
    flight; then no call is made and the state stays as it is. *)
Theorem submit_ignored_iff
    (remote : GenerateContentRequest -> completion GenerateContentResponse) (s : AppState) :
  (handleSubmit_start s = None <->
   originalImage s = None \/ all_white (prompt s) = true \/ isLoading s = true) /\
  (handleSubmit_start s = None -> handleSubmit remote s = s).
Proof.
  split.
  - unfold handleSubmit_start.
    destruct (originalImage s) as [o|]; simpl; [|tauto].
    destruct (truthy_string (trim (prompt s))) eqn:Et; simpl.
    + destruct (isLoading s); simpl.
      * tauto.
      * split; [discriminate|]. intros [H|[H|H]]; try discriminate.
        apply trim_empty_iff in H. rewrite H in Et. discriminate.
    + split; [|reflexivity]. intros _. right. left.
      apply trim_empty_iff. destruct (trim (prompt s)); [reflexivity | discriminate].
  - intros H. unfold handleSubmit. now rewrite H.
Qed.

Lemma submit_ignored_iff_witness :
  handleSubmit (fun _ => image_answer "AAAA")
    {| originalImage := Some photo_asset; editedImage := None;
       prompt := "   "; isLoading := false; error := JsNull |}
  = {| originalImage := Some photo_asset; editedImage := None;
       prompt := "   "; isLoading := false; error := JsNull |} /\
  handleSubmit (fun _ => image_answer "AAAA") nbsp_prompt_state = nbsp_prompt_state.
Proof.
  pose (s := {| originalImage := Some photo_asset; editedImage := None;
                prompt := "   "; isLoading := false; error := JsNull |}).
  destruct (submit_ignored_iff (fun _ => image_answer "AAAA") s) as [Hiff Hsame].
  destruct (submit_ignored_iff (fun _ => image_answer "AAAA") nbsp_prompt_state)
    as [Hiff' Hsame'].
  split.
  - apply Hsame. apply (proj2 Hiff). right. left. reflexivity.
  - apply Hsame'. apply (proj2 Hiff'). right. left. reflexivity.
Defined.

(** A submit that passes its guard ends, once the call has settled, with
    the image and the prompt as they were and the in-flight flag cleared,
    and with either a result and no error, or an error text and no
    result. *)
Theorem submit_ends_with_result_or_error
    (remote : GenerateContentRequest -> completion GenerateContentResponse)
    (s s1 : AppState) (c : EditCall) :
  handleSubmit_start s = Some (s1, c) ->
  originalImage (handleSubmit remote s) = originalImage s /\
  prompt (handleSubmit remote s) = prompt s /\
  isLoading (handleSubmit remote s) = false /\
  ((exists d,
      editedImage (handleSubmit remote s)
      = Some {| edited_url := "data:" ++ call_mimeType c ++ ";base64," ++ d;
                edited_mimeType := call_mimeType c |} /\
      error (handleSubmit remote s) = JsNull) \/
   (editedImage (handleSubmit remote s) = None /\
    ((exists m, error (handleSubmit remote s) = JsString (FAILED_PREFIX ++ m)) \/
     error (handleSubmit remote s) = JsString UNKNOWN_MESSAGE))).
Proof.
  intros H. unfold handleSubmit. rewrite H.
  apply handleSubmit_start_inv in H as (_ & _ & _ & _ & ->).
  destruct (run_call remote c) as [d|e] eqn:E; simpl.
  - repeat split. left. exists d. split; reflexivity.
  - repeat split. right. split; [reflexivity|].
    destruct (editImage_failure_wrapped _ _ _ _ _ E) as [[m ->] | ->]; simpl; eauto.
Qed.

Lemma submit_ends_with_result_or_error_witness :
  error (handleSubmit (fun _ => Throw (ErrorObj "timeout"))
           {| originalImage := Some photo_asset; editedImage := None;
              prompt := "add sunglasses"; isLoading := false; error := JsNull |})
  = JsString "Failed to generate image: timeout" /\
  isLoading (handleSubmit (fun _ => Throw (ErrorObj "timeout"))
           {| originalImage := Some photo_asset; editedImage := None;
              prompt := "add sunglasses"; isLoading := false; error := JsNull |})
  = false.
Proof.
  split; [reflexivity|].
  exact (proj1 (proj2 (proj2 (submit_ends_with_result_or_error
           (fun _ => Throw (ErrorObj "timeout"))
           {| originalImage := Some photo_asset; editedImage := None;
              prompt := "add sunglasses"; isLoading := false; error := JsNull |}
           _ _ eq_refl)))).
Defined.

(** ** Further properties of every session *)

Lemma processFile_asset (reader : File -> read_event) (f : File) (details : ImageDetails) :
  snd (processFile reader (Some f)) = Normal details ->
  asset_from_file {| image := details; file := f |}.
Proof.
  unfold processFile, asset_from_file, image_type.
  destruct (startsWith (type f) "image/") eqn:E; simpl; [|discriminate].
  destruct (reader f) as [d|]; [|discriminate].
  intros [= <-]. simpl. auto.
Qed.

Lemma processFile_rejection (reader : File -> read_event) (f : File) (e : js_thrown) :
  snd (processFile reader (Some f)) = Throw e -> known_error (message_of e).
Proof.
  unfold processFile, known_error.
  destruct (startsWith (type f) "image/"); simpl.
  - destruct (reader f); [discriminate|]. intros [= <-]. simpl. auto.
  - intros [= <-]. simpl. auto.
Qed.

Lemma run_call_rejection
    (remote : GenerateContentRequest -> completion GenerateContentResponse)
    (c : EditCall) (e : js_thrown) :
  run_call remote c = Throw e -> known_error (message_of e).
Proof.
  intros H. unfold known_error.
  destruct (editImage_failure_wrapped _ _ _ _ _ H) as [[m ->] | ->].
  - right. right. right. left. exists m. reflexivity.
  - right. right. right. right. reflexivity.
Qed.

Lemma app_not_nil {A : Type} (l : list A) (x : A) : l ++ [x] <> [].
Proof. destruct l; discriminate. Qed.

Lemma apply_event_well_formed (ev : event) (ss ss' : Session) :
  session_well_formed ss ->
  apply_event ev ss = Some ss' ->
  session_well_formed ss'.
Proof.
  intros (Ho & He & Hc & Hk & Hl) H.
  destruct ev as [f | n answer | v | | n answer | | ]; unfold apply_event in H.
  - destruct (placeholder_shown (app ss)); [|discriminate].
    injection H as <-.
    split; [|split; [|split; [|split]]]; cbn [app reading editing].
    + exact Ho.
    + intros r Hr. discriminate Hr.
    + exact Hc.
    + left. reflexivity.
    + intros _. left. apply app_not_nil.
  - destruct (nth_error (reading ss) n) as [f|]; [|discriminate].
    remember (snd (processFile (fun _ => answer) (Some f))) as r eqn:E.
    symmetry in E. injection H as <-.
    split; [|split; [|split; [|split]]]; cbn [app reading editing].
    + destruct r as [details|e].
      * intros o Hh. injection Hh as <-. exact (processFile_asset _ _ _ E).
      * intros o Hh. discriminate Hh.
    + destruct r; exact He.
    + exact Hc.
    + destruct r as [details|e].
      * exact Hk.
      * exact (processFile_rejection _ _ _ E).
    + destruct r; intros Hh; discriminate Hh.
  - destruct (textarea_enabled (app ss)); [|discriminate].
    injection H as <-.
    split; [|split; [|split; [|split]]]; cbn [app reading editing]; assumption.
  - destruct (controls_shown (app ss)); [|discriminate].
    destruct (handleSubmit_start (app ss)) as [[s1 c]|] eqn:E.
    + injection H as <-.
      apply handleSubmit_start_inv in E as (Hs & Ht & _ & Hp & ->).
      split; [|split; [|split; [|split]]]; cbn [app reading editing].
      * exact Ho.
      * intros r Hr. discriminate Hr.
      * intros c' Hin. apply in_app_or in Hin as [Hin | [<- | []]].
        -- now apply Hc.
        -- split; [exact (Ho _ Hs)|].
           rewrite Hp. intros E. rewrite E in Ht. discriminate Ht.
      * left. reflexivity.
      * intros _. right. apply app_not_nil.
    + injection H as <-.
      split; [|split; [|split; [|split]]]; assumption.
  - destruct (nth_error (editing ss) n) as [c|] eqn:E; [|discriminate].
    remember (run_call (fun _ => answer) c) as r eqn:Er. symmetry in Er.
    injection H as <-. apply nth_error_In in E.
    split; [|split; [|split; [|split]]]; cbn [app reading editing].
    + destruct r; exact Ho.
    + destruct r as [d|e].
      * intros r Hr. injection Hr as <-. split.
        -- destruct (Hc c E) as [(Hm & Hi & _) _].
           unfold call_mimeType. cbn [edited_mimeType]. rewrite Hm. exact Hi.
        -- exists d. reflexivity.
      * exact He.
    + intros c' Hin. apply Hc. eapply In_remove_nth. exact Hin.
    + destruct r as [d|e].
      * exact Hk.
      * exact (run_call_rejection _ _ _ Er).
    + destruct r; intros Hh; discriminate Hh.
  - destruct (controls_shown (app ss)); [|discriminate].
    injection H as <-.
    split; [|split; [|split; [|split]]]; cbn [app reading editing].
    + intros o Hh. discriminate Hh.
    + intros r Hh. discriminate Hh.
    + exact Hc.
    + left. reflexivity.
    + intros Hh. discriminate Hh.
  - destruct (banner_shown (app ss)); [|discriminate].
    injection H as <-.
    split; [|split; [|split; [|split]]]; cbn [app reading editing];
      try assumption.
    left. reflexivity.
Qed.

Lemma reachable_well_formed (ss : Session) :
  reachable ss -> session_well_formed ss.
Proof.
  intros [evs H].
  assert (G : forall evs s1 s2,
             session_well_formed s1 -> run evs s1 = Some s2 -> session_well_formed s2).
  { clear. intros evs. induction evs as [|ev evs IH]; intros s1 s2 Hw H; simpl in H.
    - now injection H as <-.
    - destruct (apply_event ev s1) as [s1'|] eqn:E; [|discriminate].
      exact (IH s1' s2 (apply_event_well_formed ev s1 s1' Hw E) H). }
  apply (G evs initial_session ss); [|exact H].
  split; [|split; [|split; [|split]]]; simpl; try discriminate.
  - intros c [].
  - left. reflexivity.
Qed.

(** Whenever the in-flight flag is set, a file read or an edit call is
    pending: the page never shows its spinner with nothing to wait for. *)
Theorem loading_means_pending (ss : Session) :
  reachable ss ->
  isLoading (app ss) = true ->
  reading ss <> [] \/ editing ss <> [].
Proof.
  intros Hr. exact (proj2 (proj2 (proj2 (proj2 (reachable_well_formed ss Hr))))).
Qed.

Lemma loading_means_pending_witness :
  reachable reading_session /\
  (reading reading_session <> [] \/ editing reading_session <> []).
Proof.
  assert (R : reachable reading_session) by (exists (ChooseFile photo_png :: nil); reflexivity).
  split; [exact R|].
  exact (loading_means_pending reading_session R eq_refl).
Defined.

(** Whenever the error banner is rendered, its text is the invalid-file
    message, a message beginning with ["Failed to generate image: "], or
    the unknown-error message. *)
Theorem banner_texts (ss : Session) :
  reachable ss ->
  banner_shown (app ss) = true ->
  error (app ss) = JsString "Please select a valid image file." \/
  (exists m, error (app ss) = JsString ("Failed to generate image: " ++ m)) \/
  error (app ss) = JsString "An unknown error occurred while generating the image.".
Proof.
  intros Hr Hb.
  destruct (reachable_well_formed ss Hr) as (_ & _ & _ & Hk & _).
  unfold banner_shown in Hb.
  destruct Hk as [E|[E|[E|[[m E]|E]]]]; rewrite E in Hb |- *;
    try discriminate Hb; eauto.
Qed.

Lemma banner_texts_witness :
  reachable rejected_session /\
  (error (app rejected_session) = JsString "Please select a valid image file." \/
   (exists m, error (app rejected_session)
              = JsString ("Failed to generate image: " ++ m)) \/
   error (app rejected_session)
   = JsString "An unknown error occurred while generating the image.").
Proof.
  assert (R : reachable rejected_session)
    by (exists (ChooseFile notes_txt :: ReadSettled 0 OnError :: nil); reflexivity).
  split; [exact R|].
  exact (banner_texts rejected_session R eq_refl).
Defined.

(** Whatever happened before, the image a session holds is what
    [processFile] made of its file (the file's type, which begins with
    [image/], and the second comma segment of its URL as payload), and the
    result it holds is the data URL ["data:" ++ mime ++ ";base64," ++ b]
    over its own mime type, for some payload [b]. *)
Theorem held_image_and_result_are_well_formed (ss : Session) :
  reachable ss ->
  (forall o, originalImage (app ss) = Some o ->
     mimeType (image o) = type (file o) /\
     startsWith (type (file o)) "image/" = true /\
     base64 (image o) = nth_error (split "," (url (image o))) 1) /\
  (forall r, editedImage (app ss) = Some r ->
     startsWith (edited_mimeType r) "image/" = true /\
     exists b, edited_url r = ("data:" ++ edited_mimeType r ++ ";base64," ++ b)%string).
Proof.
  intros Hr. destruct (reachable_well_formed ss Hr) as (Ho & He & _).
  split; [exact Ho | exact He].
Qed.

Lemma held_image_and_result_are_well_formed_witness :
  reachable edited_session /\
  exists b, edited_url edited_result
            = ("data:" ++ edited_mimeType edited_result ++ ";base64," ++ b)%string.
Proof.
  assert (R : reachable edited_session) by (exists edit_completed; reflexivity).
  split; [exact R|].
  exact (proj2 (proj2 (held_image_and_result_are_well_formed edited_session R)
                  edited_result eq_refl)).
Defined.

(** ** Ingestion and result building are inverse to each other *)

Lemma data_url_cut (t b : string) :
  ("data:" ++ t ++ ";base64," ++ b)%string
  = (("data:" ++ t ++ ";base64") ++ String "," b)%string.
Proof.
  cbn [append]. do 5 f_equal.
  induction t as [|c t IH]; simpl; [reflexivity | now rewrite IH].
Qed.

(** Upload a file whose data URL is ["data:" ++ type ++ ";base64," ++ b]
    (type and [b] without comma), type a prompt that is not blank and
    submit: the remote capability is called with payload [b], the file's
    type and the prompt; when it answers with [b] as image data, the
    result's URL is the URL of the upload again. *)
Theorem echoed_payload_rebuilds_the_url
    (reader : File -> read_event)
    (remote : GenerateContentRequest -> completion GenerateContentResponse)
    (f : File) (b p : string) (s : AppState) :
  startsWith (type f) "image/" = true ->
  free_of "," (type f) = true ->
  free_of "," b = true ->
  reader f = OnLoad ("data:" ++ type f ++ ";base64," ++ b) ->
  all_white p = false ->
  remote (build_request (Some b) (type f) p) = image_answer b ->
  editedImage (handleSubmit remote (setPrompt p (handleImageUpload reader f s)))
  = Some {| edited_url := "data:" ++ type f ++ ";base64," ++ b;
            edited_mimeType := type f |}.
Proof.
  intros Ht Hf Hb Hr Hp Hremote.
  destruct (upload_success_holds_image reader f _ s Ht Hr) as [-> _].
  assert (Hsplit : nth_error (split "," ("data:" ++ type f ++ ";base64," ++ b)) 1 = Some b).
  { rewrite data_url_cut, split_at_first.
    - rewrite (split_free _ b Hb). reflexivity.
    - simpl. rewrite free_of_app, Hf. reflexivity. }
  assert (Htrim : truthy_string (trim p) = true).
  { destruct (trim p) eqn:E; [|reflexivity].
    apply trim_empty_iff in E. congruence. }
  unfold handleSubmit, handleSubmit_start. cbn [originalImage prompt isLoading setPrompt truthy negb orb].
  rewrite Htrim. cbn [negb orb].
  unfold run_call, call_base64, call_mimeType, handleSubmit_settled.
  cbn [call_original call_prompt image base64 mimeType].
  rewrite Hsplit. unfold editImage. rewrite Hremote. reflexivity.
Qed.

Lemma echoed_payload_rebuilds_the_url_witness :
  editedImage
    (handleSubmit (fun req => match request_data req with
                              | Some d => image_answer d
                              | None => Normal empty_answer
                              end)
       (setPrompt "add sunglasses"
          (handleImageUpload (fun _ => OnLoad "data:image/png;base64,QUJD")
             photo_png initial_state)))
  = Some {| edited_url := "data:image/png;base64,QUJD";
            edited_mimeType := "image/png" |}.
Proof.
  exact (echoed_payload_rebuilds_the_url
           (fun _ => OnLoad "data:image/png;base64,QUJD")
           (fun req => match request_data req with
                       | Some d => image_answer d
                       | None => Normal empty_answer
                       end)
           photo_png "QUJD" "add sunglasses" initial_state
           eq_refl eq_refl eq_refl eq_refl eq_refl eq_refl).
Defined.
